(** * The animated grid stylesheet: regions, stagger delays, entry animation

    The style sheet of the animated grid (container [.animated-grid], items
    [.card]) is embedded as data, rule by rule and in source order, and read
    through a small model of the CSS cascade: selector matching on an
    element's classes and position among its siblings, specificity, source
    order, expansion of the [animation] shorthand and substitution of
    [var(--stagger-delay)].  Times are whole milliseconds, angles whole
    degrees. *)

From Stdlib Require Import ZArith QArith List Ascii String Bool Arith Lia Lqa.
Import ListNotations.
Open Scope string_scope.

(** ** Style sheet syntax *)

Module Css.

(** A structural pseudo-class of a compound selector. *)
Inductive pseudo : Type :=
  | NthChild (n : nat)      (* :nth-child(n), n a number *)
  | LastChild.              (* :last-child *)

(** [.class] or [.class:pseudo]. *)
Record selector : Type := Sel {
  sel_class : string;
  sel_pseudo : option pseudo
}.

(** A time value: a literal, or [calc(k * var(--name))]. *)
Inductive time_expr : Type :=
  | Ms (t : Z)
  | CalcTimesVar (k : Z) (name : string).

Inductive timing_function : Type :=
  | Ease | Linear | EaseIn | EaseOut | EaseInOut.

Inductive fill_mode : Type :=
  | FillNone | Forwards | Backwards | Both.

(** Declarations as they are written in a rule body. *)
Inductive decl : Type :=
  | GridTemplateAreas (rows : list string)
  | CustomProperty (name : string) (ms : Z)
  | GridArea (name : string)
  | AnimationDelay (e : time_expr)
  | Animation (name : string) (duration : Z) (f : timing_function)
  | AnimationFillMode (m : fill_mode)
  | Other (property value : string).

Definition rule : Type := (selector * list decl)%type.

(** One keyframe of the entry animation. *)
Record keyframe : Type := Keyframe {
  opacity : Q;
  scale : Q;
  hue_rotate : Z
}.

(** [@keyframes name { from {..} to {..} }]. *)
Record keyframes : Type := Keyframes {
  kf_name : string;
  kf_from : keyframe;
  kf_to : keyframe
}.

(** ** Elements *)

(** What the selectors of the sheet can see of an element: its classes, its
    1-based position among the children of its parent, and how many
    children that parent has. *)
Record element : Type := Element {
  classes : list string;
  index : nat;
  siblings : nat
}.

Definition has_class (c : string) (e : element) : bool :=
  existsb (String.eqb c) (classes e).

Definition matches_pseudo (p : pseudo) (e : element) : bool :=
  match p with
  | NthChild n => Nat.eqb (index e) n
  | LastChild => Nat.eqb (index e) (siblings e)
  end.

Definition matches (s : selector) (e : element) : bool :=
  has_class (sel_class s) e &&
  match sel_pseudo s with
  | None => true
  | Some p => matches_pseudo p e
  end.

(** Specificity: every selector here has no id and no type part, so only the
    count of classes and pseudo-classes matters. *)
Definition specificity (s : selector) : nat :=
  match sel_pseudo s with
  | None => 1
  | Some _ => 2
  end.

(** ** Longhand properties and the cascade *)

Inductive property : Type :=
  | PGridTemplateAreas
  | PCustom (name : string)
  | PGridArea
  | PAnimationName
  | PAnimationDuration
  | PAnimationTimingFunction
  | PAnimationDelay
  | PAnimationFillMode
  | POther (name : string).

Inductive value : Type :=
  | VAreas (rows : list string)
  | VTime (e : time_expr)
  | VIdent (name : string)
  | VTiming (f : timing_function)
  | VFill (m : fill_mode)
  | VRaw (text : string).

Definition property_eqb (p q : property) : bool :=
  match p, q with
  | PGridTemplateAreas, PGridTemplateAreas => true
  | PCustom a, PCustom b => String.eqb a b
  | PGridArea, PGridArea => true
  | PAnimationName, PAnimationName => true
  | PAnimationDuration, PAnimationDuration => true
  | PAnimationTimingFunction, PAnimationTimingFunction => true
  | PAnimationDelay, PAnimationDelay => true
  | PAnimationFillMode, PAnimationFillMode => true
  | POther a, POther b => String.eqb a b
  | _, _ => false
  end.

(** A declaration sets one longhand, except the [animation] shorthand, which
    sets every animation longhand: those it does not mention are reset to
    their initial value (delay [0s], fill mode [none]). *)
Definition expand (d : decl) : list (property * value) :=
  match d with
  | GridTemplateAreas rows => [(PGridTemplateAreas, VAreas rows)]
  | CustomProperty name ms => [(PCustom name, VTime (Ms ms))]
  | GridArea name => [(PGridArea, VIdent name)]
  | AnimationDelay e => [(PAnimationDelay, VTime e)]
  | Animation name duration f =>
      [(PAnimationName, VIdent name);
       (PAnimationDuration, VTime (Ms duration));
       (PAnimationTimingFunction, VTiming f);
       (PAnimationDelay, VTime (Ms 0));
       (PAnimationFillMode, VFill FillNone)]
  | AnimationFillMode m => [(PAnimationFillMode, VFill m)]
  | Other p v => [(POther p, VRaw v)]
  end.

(** The declarations of [p] that apply to [e], in source order, each with the
    specificity of its rule's selector. *)
Definition declared (sheet : list rule) (p : property) (e : element)
  : list (nat * value) :=
  flat_map
    (fun r : rule =>
       if matches (fst r) e then
         flat_map
           (fun pv : property * value =>
              if property_eqb (fst pv) p
              then [(specificity (fst r), snd pv)] else [])
           (flat_map expand (snd r))
       else [])
    sheet.

(** Highest specificity wins; among equals the one written last. *)
Definition pick (best : option (nat * value)) (c : nat * value)
  : option (nat * value) :=
  match best with
  | None => Some c
  | Some b => if Nat.leb (fst b) (fst c) then Some c else Some b
  end.

Definition cascaded (sheet : list rule) (p : property) (e : element)
  : option value :=
  option_map snd (fold_left pick (declared sheet p e) None).

(** Whether a rule has a declaration of [p], shorthands expanded. *)
Definition declares (p : property) (r : rule) : bool :=
  existsb (fun pv : property * value => property_eqb (fst pv) p)
    (flat_map expand (snd r)).

End Css.

(** ** Computed values *)

Module Computed.
Import Css.

(** Custom properties in scope at an element: name to milliseconds. *)
Definition environment : Type := string -> option Z.

Definition no_custom_properties : environment := fun _ => None.

(** Custom properties are inherited: an element has the value its own
    cascaded declaration gives, else the value its parent has. *)
Definition custom_properties (sheet : list rule) (inherited : environment)
  (e : element) : environment :=
  fun name =>
    match cascaded sheet (PCustom name) e with
    | Some (VTime (Ms t)) => Some t
    | _ => inherited name
    end.

(** [var()] substitution; [None] when the custom property is not defined. *)
Definition resolve (env : environment) (e : time_expr) : option Z :=
  match e with
  | Ms t => Some t
  | CalcTimesVar k name => option_map (Z.mul k) (env name)
  end.

(** [grid-area]; [None] is the initial value [auto]. *)
Definition grid_area (sheet : list rule) (e : element) : option string :=
  match cascaded sheet PGridArea e with
  | Some (VIdent a) => Some a
  | _ => None
  end.

(** [grid-template-areas], one string per row; the empty list is the initial
    value [none]. *)
Definition grid_template_areas (sheet : list rule) (e : element)
  : list string :=
  match cascaded sheet PGridTemplateAreas e with
  | Some (VAreas rows) => rows
  | _ => []
  end.

(** [animation-delay].  A declaration whose [var()] has no value is invalid
    at computed-value time and the property takes its initial value [0s],
    which is also its value when nothing is declared. *)
Definition animation_delay (sheet : list rule) (env : environment)
  (e : element) : Z :=
  match cascaded sheet PAnimationDelay e with
  | Some (VTime t) =>
      match resolve (custom_properties sheet env e) t with
      | Some ms => ms
      | None => 0%Z
      end
  | _ => 0%Z
  end.

(** [animation-name]; [None] is the initial value [none]. *)
Definition animation_name (sheet : list rule) (e : element) : option string :=
  match cascaded sheet PAnimationName e with
  | Some (VIdent a) => Some a
  | _ => None
  end.

Definition animation_duration (sheet : list rule) (e : element) : Z :=
  match cascaded sheet PAnimationDuration e with
  | Some (VTime (Ms t)) => t
  | _ => 0%Z
  end.

Definition animation_timing_function (sheet : list rule) (e : element)
  : timing_function :=
  match cascaded sheet PAnimationTimingFunction e with
  | Some (VTiming f) => f
  | _ => Ease
  end.

Definition animation_fill_mode (sheet : list rule) (e : element) : fill_mode :=
  match cascaded sheet PAnimationFillMode e with
  | Some (VFill m) => m
  | _ => FillNone
  end.

(** The animation parameters of an element other than its start delay. *)
Record transition : Type := Transition {
  tr_name : option string;
  tr_duration : Z;
  tr_timing : timing_function;
  tr_fill : fill_mode
}.

Definition entry_transition (sheet : list rule) (e : element) : transition :=
  {| tr_name := animation_name sheet e;
     tr_duration := animation_duration sheet e;
     tr_timing := animation_timing_function sheet e;
     tr_fill := animation_fill_mode sheet e |}.

Definition find_keyframes (ks : list keyframes) (name : string)
  : option keyframes :=
  find (fun k => String.eqb (kf_name k) name) ks.

(** *** The timeline of an animation *)

(** Where an animation is, [t] milliseconds after its element is rendered:
    before its start until the delay has elapsed, then active for its
    duration, and over from then on. *)
Inductive phase : Type :=
  | Before
  | Active (elapsed : Z)
  | After.

Definition phase_at (delay duration t : Z) : phase :=
  if (t <? delay)%Z then Before
  else if (t <? delay + duration)%Z then Active (t - delay)
  else After.

(** What an element shows at an instant: its own style, where the animation
    does not apply; a keyframe that the fill mode holds; or, while the
    animation is active, a style between the two keyframes. *)
Inductive display : Type :=
  | Own
  | Held (k : keyframe)
  | Running (from to : keyframe) (f : timing_function) (elapsed duration : Z).

(** The fill mode decides what is shown outside the active phase:
    [backwards] and [both] hold the first keyframe before the start,
    [forwards] and [both] the last keyframe after the end. *)
Definition displayed (ks : list keyframes) (tr : transition) (delay t : Z)
  : display :=
  match tr_name tr with
  | None => Own
  | Some name =>
      match find_keyframes ks name with
      | None => Own
      | Some k =>
          match phase_at delay (tr_duration tr) t with
          | Before =>
              match tr_fill tr with
              | Backwards | Both => Held (kf_from k)
              | _ => Own
              end
          | Active elapsed =>
              Running (kf_from k) (kf_to k) (tr_timing tr) elapsed
                (tr_duration tr)
          | After =>
              match tr_fill tr with
              | Forwards | Both => Held (kf_to k)
              | _ => Own
              end
          end
      end
  end.

(** The own style of an element in the three properties that the keyframes
    animate.  The initial values are [opacity: 1], [transform: none] and
    [filter: none], that is scale 1 and no hue rotation; a declared value is
    not interpreted ([None]). *)
Definition own_style (sheet : list rule) (e : element) : option keyframe :=
  match cascaded sheet (POther "opacity") e,
        cascaded sheet (POther "transform") e,
        cascaded sheet (POther "filter") e with
  | None, None, None =>
      Some {| opacity := 1; scale := 1; hue_rotate := 0 |}
  | _, _, _ => None
  end.

(** *** Timing curves *)

(** The keyword timing functions are cubic Bezier curves from (0, 0) to
    (1, 1); these are their two inner control points (x1, y1), (x2, y2). *)
Definition control_points (f : timing_function) : (Q * Q) * (Q * Q) :=
  match f with
  | Ease => ((25 # 100, 1 # 10), (25 # 100, 1))
  | Linear => ((0, 0), (1, 1))
  | EaseIn => ((42 # 100, 0), (1, 1))
  | EaseOut => ((0, 0), (58 # 100, 1))
  | EaseInOut => ((42 # 100, 0), (58 # 100, 1))
  end%Q.

(** One coordinate of such a curve at the parameter [s]. *)
Definition bezier (p1 p2 s : Q) : Q :=
  (3 * (1 - s) * (1 - s) * s * p1 + 3 * (1 - s) * s * s * p2 + s * s * s)%Q.

(** The point of the curve at [s]: the fraction of the duration that has
    elapsed, and the progress from the first keyframe to the last then. *)
Definition curve (f : timing_function) (s : Q) : Q * Q :=
  (bezier (fst (fst (control_points f))) (fst (snd (control_points f))) s,
   bezier (snd (fst (control_points f))) (snd (snd (control_points f))) s).

(** A style between keyframes. *)
Record style : Type := Style {
  st_opacity : Q;
  st_scale : Q;
  st_hue : Q
}.

Definition style_eq (a b : style) : Prop :=
  (st_opacity a == st_opacity b /\ st_scale a == st_scale b /\
   st_hue a == st_hue b)%Q.

Definition of_keyframe (k : keyframe) : style :=
  {| st_opacity := opacity k;
     st_scale := scale k;
     st_hue := inject_Z (hue_rotate k) |}.

(** Each property goes the fraction [y] of its way from [from] to [to]. *)
Definition mix (from to : keyframe) (y : Q) : style :=
  {| st_opacity := opacity from + y * (opacity to - opacity from);
     st_scale := scale from + y * (scale to - scale from);
     st_hue := inject_Z (hue_rotate from) +
               y * (inject_Z (hue_rotate to) - inject_Z (hue_rotate from)) |}%Q.

(** A running animation follows its timing curve: at the parameter [s] of
    the curve, the fraction of the duration that has elapsed and the style
    that is shown at that instant. *)
Definition running_point (from to : keyframe) (f : timing_function) (s : Q)
  : Q * style :=
  (fst (curve f s), mix from to (snd (curve f s))).

End Computed.

(** ** Grid templates *)

Module Template.

Definition is_space (c : Ascii.ascii) : bool := Ascii.eqb c " "%char.

(** The cell tokens of one row string, separated by spaces; [cur] is the
    token being read. *)
Fixpoint tokens_from (cur s : string) : list string :=
  match s with
  | EmptyString => if String.eqb cur "" then [] else [cur]
  | String c rest =>
      if is_space c then
        if String.eqb cur "" then tokens_from "" rest
        else cur :: tokens_from "" rest
      else tokens_from (cur ++ String c "") rest
  end.

Definition tokens (s : string) : list string := tokens_from "" s.

(** The template as rows of cell names. *)
Definition grid (rows : list string) : list (list string) := map tokens rows.

(** Number of columns when every row has as many cells as the first. *)
Definition columns (g : list (list string)) : option nat :=
  match g with
  | [] => None
  | r :: rs =>
      if forallb (fun r' => Nat.eqb (List.length r') (List.length r)) rs
      then Some (List.length r) else None
  end.

(** The names used in a list of cells, each once, in order of first use. *)
Fixpoint distinct (l : list string) : list string :=
  match l with
  | [] => []
  | x :: r => x :: filter (fun y => negb (String.eqb x y)) (distinct r)
  end.

Definition area_names (g : list (list string)) : list string :=
  distinct (List.concat g).

(** The cells (row, column), counted from 1, that carry [name]. *)
Definition cells_in_row (name : string) (r : nat) (row : list string)
  : list (nat * nat) :=
  flat_map
    (fun cn : nat * string =>
       if String.eqb (snd cn) name then [(r, fst cn)] else [])
    (combine (seq 1 (List.length row)) row).

Definition cells (g : list (list string)) (name : string) : list (nat * nat) :=
  flat_map
    (fun rn : nat * list string => cells_in_row name (fst rn) (snd rn))
    (combine (seq 1 (List.length g)) g).

(** The cells of the [h] by [w] block whose top left cell is [(r, c)]. *)
Definition block (r c h w : nat) : list (nat * nat) :=
  flat_map (fun r' => map (pair r') (seq c w)) (seq r h).

(** Two cells that share an edge. *)
Definition adjacent (p q : nat * nat) : bool :=
  Nat.eqb ((fst p - fst q) + (fst q - fst p) +
           ((snd p - snd q) + (snd q - snd p))) 1.

End Template.

(** ** The style sheet of the animated grid *)

Module AnimatedGrid.
Import Css Computed.

Definition stylesheet : list rule :=
  [ (Sel "animated-grid" None,
     [ Other "height" "85vh";
       Other "display" "grid";
       Other "gap" "1rem";
       GridTemplateAreas
         [ "a  b  c  d";
           "l  🌟 🌟 e";
           "k  🌟 🌟 f";
           "j  i  h  g" ];
       Other "grid-template-columns" "240px auto auto 240px";
       Other "grid-template-rows" "repeat(4, 25%)";
       CustomProperty "--stagger-delay" 100 ]);
    (Sel "card" (Some (NthChild 1)),
     [ GridArea "a"; AnimationDelay (CalcTimesVar 1 "--stagger-delay") ]);
    (Sel "card" (Some (NthChild 2)),
     [ GridArea "b"; AnimationDelay (CalcTimesVar 2 "--stagger-delay") ]);
    (Sel "card" (Some (NthChild 3)),
     [ GridArea "c"; AnimationDelay (CalcTimesVar 3 "--stagger-delay") ]);
    (Sel "card" (Some (NthChild 4)),
     [ GridArea "d"; AnimationDelay (CalcTimesVar 4 "--stagger-delay") ]);
    (Sel "card" (Some (NthChild 5)),
     [ GridArea "e"; AnimationDelay (CalcTimesVar 5 "--stagger-delay") ]);
    (Sel "card" (Some (NthChild 6)),
     [ GridArea "f"; AnimationDelay (CalcTimesVar 6 "--stagger-delay") ]);
    (Sel "card" (Some (NthChild 7)),
     [ GridArea "g"; AnimationDelay (CalcTimesVar 7 "--stagger-delay") ]);
    (Sel "card" (Some (NthChild 8)),
     [ GridArea "h"; AnimationDelay (CalcTimesVar 8 "--stagger-delay") ]);
    (Sel "card" (Some (NthChild 9)),
     [ GridArea "i"; AnimationDelay (CalcTimesVar 9 "--stagger-delay") ]);
    (Sel "card" (Some (NthChild 10)),
     [ GridArea "j"; AnimationDelay (CalcTimesVar 10 "--stagger-delay") ]);
    (Sel "card" (Some (NthChild 11)),
     [ GridArea "k"; AnimationDelay (CalcTimesVar 11 "--stagger-delay") ]);
    (Sel "card" (Some (NthChild 12)),
     [ GridArea "l"; AnimationDelay (CalcTimesVar 12 "--stagger-delay") ]);
    (Sel "card" (Some LastChild),
     [ GridArea "🌟"; AnimationDelay (CalcTimesVar 13 "--stagger-delay") ]);
    (Sel "card" None,
     [ Other "background-color" "rgb(36,243, 147)";
       Animation "cardEffect" 700 EaseOut;
       AnimationFillMode Backwards ]) ].

Definition cardEffect : keyframes :=
  {| kf_name := "cardEffect";
     kf_from := {| opacity := 0; scale := 3 # 10; hue_rotate := 180 |};
     kf_to := {| opacity := 1; scale := 1; hue_rotate := 0 |} |}.

Definition animations : list keyframes := [cardEffect].

(** The item at ordinal position [i] of [N]: a [.card] that is the [i]-th of
    the [N] children of its parent. *)
Definition card (i N : nat) : element :=
  {| classes := ["card"]; index := i; siblings := N |}.

(** The grid container; its own position does not matter to the sheet. *)
Definition animated_grid : element :=
  {| classes := ["animated-grid"]; index := 1; siblings := 1 |}.

(** The custom properties of a card whose unit delay is [u]. *)
Definition stagger (u : Z) : environment :=
  fun name => if String.eqb name "--stagger-delay" then Some u else None.

(** Region label of item [i] of [N]; [None] when no rule places the item. *)
Definition region (i N : nat) : option string :=
  grid_area stylesheet (card i N).

(** Start delay, in milliseconds, of item [i] of [N] under unit delay [u]. *)
Definition delay (i N : nat) (u : Z) : Z :=
  animation_delay stylesheet (stagger u) (card i N).

(** The fixed enumeration of the single-cell labels. *)
Definition labels : list string :=
  ["a"; "b"; "c"; "d"; "e"; "f"; "g"; "h"; "i"; "j"; "k"; "l"].

Definition star : string := "🌟".

(** The positions whose rule is a positional one that gives the position
    times the unit as delay: the first twelve when they are not last, and
    the thirteenth of thirteen, where the rule for the last child does. *)
Definition positional (i N : nat) : Prop :=
  ((1 <= i <= 12)%nat /\ (i < N)%nat) \/ (i = 13%nat /\ N = 13%nat).

(** An item of the grid: an element of class [card], with whatever other
    classes, that is not itself a grid container. *)
Definition is_item (e : element) : Prop :=
  has_class "card" e = true /\ has_class "animated-grid" e = false.

End AnimatedGrid.

(** ** The counter reducer of the hooks examples *)

Module Hooks.

(** What the [count] field of a state holds: a finite number with an integer
    value, [NaN] or a string. *)
Inductive count_value : Type :=
  | CNumber (n : Z)
  | CNaN
  | CString (s : string).

(** A state of the hook as [App] uses it: the number [useReducer] is given
    at first, a finite number with an integer value, or an object
    [{count: c}] as [reducer] returns.  Values of other types are not states
    of this model. *)
Inductive state : Type :=
  | SNumber (n : Z)
  | SObject (count : count_value).

(** An action object with a string as its type, [{ type: '...' }], as the
    buttons of [App] dispatch. *)
Record action : Type := Action { type : string }.

Inductive outcome : Type :=
  | Returns (s : state)
  | Throws.                 (* throw new Error() *)

(** Numbers are double precision floats.  Every integer up to 2^53 in
    absolute value is one; beyond, they are spaced by a power of two, and a
    sum or difference is rounded to the nearest of them, to the one with the
    even significand when it lies half way. *)
Definition round_double (z : Z) : Z :=
  let m := Z.abs z in
  if (m <=? 2 ^ 53)%Z then z
  else
    let ulp := (2 ^ (Z.log2 m - 52))%Z in
    let q := (m / ulp)%Z in
    let r := (m mod ulp)%Z in
    let q' :=
      if (2 * r <? ulp)%Z then q
      else if (ulp <? 2 * r)%Z then (q + 1)%Z
      else if Z.even q then q else (q + 1)%Z in
    (Z.sgn z * (q' * ulp))%Z.

(** [state + 1]: a sum of numbers, but for an object the string that the
    object converts to, followed by ["1"]. *)
Definition plus_one (s : state) : count_value :=
  match s with
  | SNumber n => CNumber (round_double (n + 1))
  | SObject _ => CString ("[object Object]" ++ "1")
  end.

(** [state - 1]: an object converts to [NaN]. *)
Definition minus_one (s : state) : count_value :=
  match s with
  | SNumber n => CNumber (round_double (n - 1))
  | SObject _ => CNaN
  end.

Definition reducer (s : state) (a : action) : outcome :=
  if String.eqb (type a) "increment" then Returns (SObject (plus_one s))
  else if String.eqb (type a) "decrement" then Returns (SObject (minus_one s))
  else Throws.

(** [useReducer(reducer, 0)]. *)
Definition initial_state : state := SNumber 0.

(** The state of the hook after the actions dispatched one after the other:
    each dispatch replaces the state by what [reducer] returns for it, and an
    error ends the run. *)
Fixpoint dispatch_all (s : state) (acts : list action) : outcome :=
  match acts with
  | [] => Returns s
  | a :: rest =>
      match reducer s a with
      | Returns s' => dispatch_all s' rest
      | Throws => Throws
      end
  end.

(** The action types that [reducer] has a case for. *)
Definition known (a : action) : Prop :=
  type a = "increment" \/ type a = "decrement".

End Hooks.

(** * Facts about the cascade *)

Import Css Computed AnimatedGrid.
Local Open Scope Z_scope.
Local Open Scope list_scope.

Section Cascade.

Variable sheet : list rule.
Variable p : property.
Variable e : element.

Lemma specificity_le_2 (s : selector) : (specificity s <= 2)%nat.
Proof. unfold specificity. destruct (sel_pseudo s); lia. Qed.

Lemma declared_app (s1 s2 : list rule) :
  declared (s1 ++ s2) p e = declared s1 p e ++ declared s2 p e.
Proof. unfold declared. apply flat_map_app. Qed.

Lemma declared_specificity (c : nat * value) :
  In c (declared sheet p e) -> (fst c <= 2)%nat.
Proof.
  unfold declared. rewrite in_flat_map. intros [r [_ Hc]].
  destruct (matches (fst r) e); [|contradiction].
  rewrite in_flat_map in Hc. destruct Hc as [pv [_ Hpv]].
  destruct (property_eqb (fst pv) p); [|contradiction].
  destruct Hpv as [<-|[]]. apply specificity_le_2.
Qed.

(** The winner of a fold is no more specific than a bound on what went in. *)
Lemma fold_pick_bound (n : nat) (l : list (nat * value)) :
  forall acc b,
    (forall c, In c l -> (fst c <= n)%nat) ->
    (forall a, acc = Some a -> (fst a <= n)%nat) ->
    fold_left pick l acc = Some b -> (fst b <= n)%nat.
Proof.
  induction l as [|c l IH]; intros acc b Hl Hacc Hfold; simpl in Hfold.
  - auto.
  - apply (IH (pick acc c) b); auto with datatypes.
    intros a Ha. destruct acc as [a0|]; simpl in Ha.
    + destruct (Nat.leb (fst a0) (fst c)); inversion Ha; subst;
        auto with datatypes.
    + inversion Ha; subst. auto with datatypes.
Qed.

(** A declaration stays the winner over less specific ones written later. *)
Lemma fold_pick_keep (l : list (nat * value)) (b : nat * value) :
  (forall c, In c l -> (fst c < fst b)%nat) ->
  fold_left pick l (Some b) = Some b.
Proof.
  induction l as [|c l IH]; intros Hl; simpl.
  - reflexivity.
  - assert (Hc : (fst c < fst b)%nat) by auto with datatypes.
    apply Nat.leb_gt in Hc. rewrite Hc. auto with datatypes.
Qed.

(** A declaration beats everything written before it that is not more
    specific. *)
Lemma fold_pick_last (l : list (nat * value)) (c : nat * value) :
  (forall b, In b l -> (fst b <= fst c)%nat) ->
  fold_left pick (l ++ [c]) None = Some c.
Proof.
  intros Hl. rewrite fold_left_app. simpl.
  destruct (fold_left pick l None) as [b|] eqn:Hb; simpl.
  - assert (Hle : (fst b <= fst c)%nat).
    { apply (fold_pick_bound (fst c) l None b); auto. discriminate. }
    apply Nat.leb_le in Hle. rewrite Hle. reflexivity.
  - reflexivity.
Qed.

End Cascade.

(** A rule with a pseudo-class that applies to [e] and declares [p] once
    decides [p], whatever rules with one class and one pseudo-class at most
    come before it, when no later rule of equal or higher specificity
    declares [p] for [e]. *)
Lemma cascaded_override (before after : list rule) (r : rule)
  (p : property) (e : element) (v : value) :
  declared [r] p e = [(2%nat, v)] ->
  (forall c, In c (declared after p e) -> (fst c < 2)%nat) ->
  cascaded (before ++ r :: after) p e = Some v.
Proof.
  intros Hr Hafter. unfold cascaded.
  change (r :: after) with ([r] ++ after).
  rewrite !declared_app, Hr, app_assoc, fold_left_app.
  rewrite fold_pick_last.
  - rewrite fold_pick_keep; auto.
  - intros b Hb. apply (declared_specificity _ _ _ _ Hb).
Qed.

(** Rules that do not declare [p] play no part in its cascade. *)

Lemma declared_relevant (sheet : list rule) (p : property) (e : element) :
  declared sheet p e = declared (filter (declares p) sheet) p e.
Proof.
  induction sheet as [|r sheet IH]; [reflexivity|].
  change (r :: sheet) with ([r] ++ sheet).
  rewrite declared_app, IH. simpl filter.
  destruct (declares p r) eqn:Hr.
  - change (r :: filter (declares p) sheet)
      with ([r] ++ filter (declares p) sheet).
    rewrite declared_app. reflexivity.
  - replace (declared [r] p e) with (@nil (nat * value)); [reflexivity|].
    unfold declared, declares in *. simpl. rewrite app_nil_r.
    destruct (matches (fst r) e); [|reflexivity].
    induction (flat_map expand (snd r)) as [|pv l IHl]; [reflexivity|].
    simpl in *. apply orb_false_iff in Hr. destruct Hr as [Hpv Hl].
    rewrite Hpv. simpl. auto.
Qed.

(** * The animated grid *)

Lemma stylesheet_split :
  stylesheet =
  firstn 13 stylesheet ++
  (Sel "card" (Some LastChild),
   [ GridArea "🌟"; AnimationDelay (CalcTimesVar 13 "--stagger-delay") ])
  :: skipn 14 stylesheet.
Proof. reflexivity. Qed.

(** No rule for cards declares a custom property: a card has the ones it
    inherits. *)
Lemma card_custom_properties (env : environment) (i N : nat) (name : string) :
  custom_properties stylesheet env (card i N) name = env name.
Proof.
  unfold custom_properties, cascaded.
  rewrite declared_relevant.
  unfold declares. cbn -[String.eqb].
  destruct (String.eqb "--stagger-delay" name); reflexivity.
Qed.

Ltac by_position i :=
  do 13 (destruct i as [|i]; [reflexivity|]); reflexivity.

(** The region of an item, by cases on its position. *)
Lemma region_cases (i N : nat) :
  region i N =
  if Nat.eqb i N then Some star
  else if Nat.leb 1 i && Nat.leb i 12 then nth_error labels (i - 1)
  else None.
Proof.
  unfold region, grid_area, cascaded, declared, matches, matches_pseudo.
  cbn -[Nat.eqb Nat.leb nth_error labels].
  destruct (Nat.eqb i N); by_position i.
Qed.

(** The [animation-delay] declaration that wins for an item. *)
Lemma delay_declaration (i N : nat) :
  cascaded stylesheet PAnimationDelay (card i N) =
  Some (VTime
          (if Nat.eqb i N then CalcTimesVar 13 "--stagger-delay"
           else if Nat.leb 1 i && Nat.leb i 12
                then CalcTimesVar (Z.of_nat i) "--stagger-delay"
                else Ms 0)).
Proof.
  unfold cascaded, declared, matches, matches_pseudo.
  cbn -[Nat.eqb Nat.leb Z.of_nat].
  destruct (Nat.eqb i N); by_position i.
Qed.

(** The start delay of an item, by cases on its position. *)
Lemma delay_cases (i N : nat) (u : Z) :
  delay i N u =
  if Nat.eqb i N then 13 * u
  else if Nat.leb 1 i && Nat.leb i 12 then Z.of_nat i * u
  else 0.
Proof.
  unfold delay, animation_delay. rewrite delay_declaration.
  destruct (Nat.eqb i N); [|destruct (Nat.leb 1 i && Nat.leb i 12)];
    unfold resolve; rewrite ?card_custom_properties; reflexivity.
Qed.

(** The [:last-child] rule decides the region of the last item: it comes
    after every positional rule, with the same specificity. *)
Lemma last_child_region (N : nat) : region N N = Some star.
Proof.
  unfold region, grid_area. rewrite stylesheet_split.
  rewrite (cascaded_override _ _ _ _ _ (VIdent "🌟")); [reflexivity| |].
  - unfold declared, matches, matches_pseudo. cbn -[Nat.eqb].
    rewrite Nat.eqb_refl. reflexivity.
  - rewrite declared_relevant. cbn. contradiction.
Qed.

(** And so it does for the start delay of the last item, where the only
    later declaration is the less specific reset by the shorthand. *)
Lemma last_child_delay (N : nat) (u : Z) : delay N N u = 13 * u.
Proof.
  unfold delay, animation_delay. rewrite stylesheet_split.
  rewrite (cascaded_override _ _ _ _ _
             (VTime (CalcTimesVar 13 "--stagger-delay"))).
  - rewrite <- stylesheet_split. unfold resolve.
    rewrite card_custom_properties. reflexivity.
  - unfold declared, matches, matches_pseudo. cbn -[Nat.eqb].
    rewrite Nat.eqb_refl. reflexivity.
  - unfold declared, matches. cbn. intros c [<-|[]]. simpl. lia.
Qed.

Ltac split_positions :=
  repeat match goal with
         | |- context [Nat.eqb ?a ?b] => destruct (Nat.eqb_spec a b)
         | |- context [Nat.leb ?a ?b] => destruct (Nat.leb_spec a b)
         end;
  cbn [andb].

(** The sheet on the thirteen cards it is written for, at its own unit
    delay of 100ms. *)
Example thirteen_items :
  map (fun i => (region i 13, delay i 13 100)) (seq 1 13) =
  [ (Some "a", 100); (Some "b", 200); (Some "c", 300); (Some "d", 400);
    (Some "e", 500); (Some "f", 600); (Some "g", 700); (Some "h", 800);
    (Some "i", 900); (Some "j", 1000); (Some "k", 1100); (Some "l", 1200);
    (Some star, 1300) ]%string.
Proof. reflexivity. Qed.

(** ** Regions *)

(** C2: for every total count N >= 1 the last item (position N) is given the
    merged star region, whatever N is; the rule for the last child overrides
    the positional rule for a to l. *)
Theorem region_last_is_star (N : nat) :
  (1 <= N)%nat -> region N N = Some star.
Proof. intros _. apply last_child_region. Qed.

Lemma region_last_is_star_witness :
  (1 <= 5)%nat /\ region 5 5 = Some star.
Proof. split; [lia | apply (region_last_is_star 5); lia]. Defined.

(** C3: for every position i in [1,12] and every total count N >= 13, the
    region of the item at position i is the i-th label of the sequence
    a, b, c, d, e, f, g, h, i, j, k, l. *)
Theorem region_positional (i N : nat) :
  (1 <= i <= 12)%nat -> (13 <= N)%nat ->
  region i N = nth_error labels (i - 1) /\ region i N <> None.
Proof.
  intros Hi HN. rewrite region_cases.
  destruct (Nat.eqb_spec i N) as [->|_]; [lia|].
  destruct (Nat.leb_spec 1 i); [|lia].
  destruct (Nat.leb_spec i 12); [|lia].
  cbn [andb]. split; [reflexivity|].
  apply nth_error_Some. simpl. lia.
Qed.

Lemma region_positional_witness :
  (1 <= 9 <= 12)%nat /\ (13 <= 20)%nat /\
  region 9 20 = nth_error labels (9 - 1) /\ region 9 20 <> None.
Proof.
  split; [lia|]. split; [lia|]. apply (region_positional 9 20); lia.
Defined.

(** C5: the grid template of the container is a 4 by 4 rectangle that
    defines exactly 13 regions: the twelve single cells a to l and one
    merged 2 by 2 region, the star, which is the region of the last item. *)
Theorem template_regions :
  let g := Template.grid (grid_template_areas stylesheet animated_grid) in
  List.length g = 4%nat /\
  Template.columns g = Some 4%nat /\
  List.length (Template.area_names g) = 13%nat /\
  (forall a, In a (Template.area_names g) <-> In a labels \/ a = star) /\
  Forall (fun a => List.length (Template.cells g a) = 1%nat) labels /\
  Template.cells g star = Template.block 2 2 2 2 /\
  (forall N, region N N = Some star).
Proof.
  cbv zeta.
  change (Template.grid (grid_template_areas stylesheet animated_grid))
    with [ ["a"; "b"; "c"; "d"]; ["l"; star; star; "e"];
           ["k"; star; star; "f"]; ["j"; "i"; "h"; "g"] ]%string.
  repeat split; try reflexivity.
  - unfold Template.area_names, labels, star. simpl.
    intuition (subst; auto).
  - unfold Template.area_names, labels, star. simpl.
    intros [H | ->]; tauto.
  - unfold labels. repeat constructor.
  - apply last_child_region.
Qed.

(** ** Start delays *)

(** C1 (as amended): for every unit delay u > 0 and every position i that is
    in [1,12] and not the last (i < N), or is the last of exactly 13 items,
    the start delay is i times u, and for fixed u and N the delay is
    strictly increasing in i over these positions. *)
Theorem delay_positional (i N : nat) (u : Z) :
  0 < u -> positional i N ->
  delay i N u = Z.of_nat i * u /\
  (forall j, positional j N -> (i < j)%nat -> delay i N u < delay j N u).
Proof.
  unfold positional. intros Hu Hi. split.
  - rewrite delay_cases. split_positions; lia.
  - intros j Hj Hij. rewrite !delay_cases. split_positions; nia.
Qed.

Lemma delay_positional_witness :
  0 < 100 /\ positional 3 13 /\
  delay 3 13 100 = Z.of_nat 3 * 100 /\
  (forall j, positional j 13 -> (3 < j)%nat -> delay 3 13 100 < delay j 13 100).
Proof.
  assert (Hu : 0 < 100) by lia.
  assert (Hp : positional 3 13) by (left; lia).
  split; [exact Hu|]. split; [exact Hp|].
  exact (delay_positional 3 13 100 Hu Hp).
Defined.

(** C1 fails as stated: the last of five items does not start after five
    units but after thirteen, and the thirteenth of fourteen items has no
    delay at all, so that the delay is not increasing there either. *)
Lemma last_of_five_not_five_units :
  (1 <= 5 <= 5)%nat /\ 0 < 50 /\ delay 5 5 50 <> Z.of_nat 5 * 50 /\
  (1 <= 13 <= 14)%nat /\ delay 13 14 50 <> Z.of_nat 13 * 50 /\
  ~ delay 12 14 50 < delay 13 14 50.
Proof.
  repeat split; try lia; try reflexivity;
    intros H; vm_compute in H;
    first [discriminate H | apply H; reflexivity].
Qed.

(** C4 (as amended): with five items and a unit delay of 50ms, the item at
    position 5 is given the star region, not region e, and its start delay
    is 650ms, thirteen units. *)
Theorem five_items_last :
  region 5 5 = Some star /\ region 5 5 <> Some "e"%string /\
  delay 5 5 50 = 650.
Proof.
  split; [reflexivity|]. split; [|reflexivity].
  intros H. vm_compute in H. discriminate H.
Qed.

(** C4 fails as stated: the start delay of that item is not 250ms. *)
Lemma fifth_of_five_not_250ms :
  ~ (region 5 5 = Some star /\ region 5 5 <> Some "e"%string /\
     delay 5 5 50 = 250).
Proof. intros [_ [_ H]]. vm_compute in H. discriminate. Qed.

(** C6 (as amended): for every unit delay u > 0 the start delays are
    strictly increasing over the positions i <= 12 of the items, and for
    every total count N <= 13 they are non-decreasing over all positions
    1..N. *)
Theorem delay_monotone (i j N : nat) (u : Z) :
  0 < u -> (1 <= i)%nat -> (i <= j)%nat -> (j <= N)%nat ->
  ((N <= 13)%nat -> delay i N u <= delay j N u) /\
  ((i < j)%nat -> (j <= 12)%nat -> delay i N u < delay j N u).
Proof.
  intros Hu Hi Hij HjN. rewrite !delay_cases.
  split; intros; split_positions; nia.
Qed.

Lemma delay_monotone_witness :
  0 < 100 /\ (1 <= 4)%nat /\ (4 <= 9)%nat /\ (9 <= 13)%nat /\
  ((13 <= 13)%nat -> delay 4 13 100 <= delay 9 13 100) /\
  ((4 < 9)%nat -> (9 <= 12)%nat -> delay 4 13 100 < delay 9 13 100).
Proof.
  assert (Hu : 0 < 100) by lia.
  assert (H1 : (1 <= 4)%nat) by lia.
  assert (H2 : (4 <= 9)%nat) by lia.
  assert (H3 : (9 <= 13)%nat) by lia.
  repeat (split; [assumption|]).
  exact (delay_monotone 4 9 13 100 Hu H1 H2 H3).
Defined.

(** C6 fails as stated: of fourteen items the thirteenth matches no rule
    that sets a delay and starts at once, before the twelfth. *)
Lemma thirteenth_of_fourteen_starts_first :
  0 < 100 /\ (1 <= 12)%nat /\ (12 <= 13)%nat /\ (13 <= 14)%nat /\
  delay 12 14 100 = 1200 /\ delay 13 14 100 = 0 /\
  ~ delay 12 14 100 <= delay 13 14 100.
Proof.
  repeat split; try lia; try reflexivity;
    intros H; vm_compute in H;
    first [discriminate H | apply H; reflexivity].
Qed.

(** C10: for every total count N from 1 to 13, the last item has the star
    region and a start delay of thirteen units, whatever N is; when N < 13
    (and the unit is positive) that is more than N units. *)
Theorem delay_last_is_thirteen_units (N : nat) (u : Z) :
  (1 <= N)%nat -> (N <= 13)%nat ->
  region N N = Some star /\
  delay N N u = 13 * u /\
  ((N < 13)%nat -> 0 < u -> Z.of_nat N * u < delay N N u).
Proof.
  intros _ _. rewrite last_child_region, last_child_delay.
  repeat split. intros; nia.
Qed.

Lemma delay_last_is_thirteen_units_witness :
  (1 <= 5)%nat /\ (5 <= 13)%nat /\
  region 5 5 = Some star /\
  delay 5 5 50 = 13 * 50 /\
  ((5 < 13)%nat -> 0 < 50 -> Z.of_nat 5 * 50 < delay 5 5 50).
Proof.
  assert (H1 : (1 <= 5)%nat) by lia.
  assert (H2 : (5 <= 13)%nat) by lia.
  split; [exact H1|]. split; [exact H2|].
  exact (delay_last_is_thirteen_units 5 50 H1 H2).
Defined.

(** ** Entry animation *)

Lemma card_entry_transition (i N : nat) :
  entry_transition stylesheet (card i N) =
  {| tr_name := Some "cardEffect"%string;
     tr_duration := 700;
     tr_timing := EaseOut;
     tr_fill := Backwards |}.
Proof.
  unfold entry_transition, animation_name, animation_duration,
    animation_timing_function, animation_fill_mode, cascaded.
  rewrite !(declared_relevant stylesheet). reflexivity.
Qed.

(** The timeline of a card whose start delay is [d]. *)
Lemma card_displayed (i N : nat) (d t : Z) :
  displayed animations (entry_transition stylesheet (card i N)) d t =
  match phase_at d 700 t with
  | Before => Held (kf_from cardEffect)
  | Active elapsed =>
      Running (kf_from cardEffect) (kf_to cardEffect) EaseOut elapsed 700
  | After => Own
  end.
Proof. rewrite card_entry_transition. reflexivity. Qed.

(** The ease-out curve on its parameter interval: elapsed time and progress
    both advance with the parameter, from 0 to 1, and the progress is never
    behind the elapsed time. *)
Lemma ease_out_curve (s s' : Q) :
  (0 <= s)%Q -> (s <= s')%Q -> (s' <= 1)%Q ->
  (0 <= fst (curve EaseOut s))%Q /\
  (fst (curve EaseOut s) <= fst (curve EaseOut s'))%Q /\
  (fst (curve EaseOut s') <= 1)%Q /\
  (snd (curve EaseOut s) <= snd (curve EaseOut s'))%Q /\
  (fst (curve EaseOut s) <= snd (curve EaseOut s))%Q /\
  (snd (curve EaseOut s') <= 1)%Q.
Proof.
  intros H0 Hs H1. unfold curve, control_points, bezier. cbn [fst snd].
  assert (Ha : (0 <= s * s)%Q) by nra.
  assert (Hb : (0 <= s' * s')%Q) by nra.
  assert (Hc : (s * s <= s)%Q) by nra.
  assert (Hd : (s' * s' <= s')%Q) by nra.
  assert (He : (s * s' <= s')%Q) by nra.
  assert (Hf : (0 <= s * s')%Q) by nra.
  assert (Hg : (0 <= (s' - s) * (s + s' - s * s'))%Q) by nra.
  assert (Hh : (0 <= (s' - s) * (s * (1 - s) + s' * (1 - s')))%Q) by nra.
  assert (Hi : (0 <= s * s * (1 - s))%Q) by nra.
  assert (Hj : (0 <= (1 - s') * (1 - s') * (1 + 2 * s'))%Q) by nra.
  assert (Hk : (0 <= s' * s' * (1 - s'))%Q) by nra.
  repeat split; nra.
Qed.

(** C7: every item, at every position, has the same entry transition:
    cardEffect over 700ms with the ease-out curve, from opacity 0, scale 0.3
    and a hue rotation of 180 degrees to opacity 1, scale 1 and no hue
    rotation.  The fill mode is backwards, and it is for that fill mode
    (or both) that the first keyframe is held before the start: it is held
    exactly until the item's own delay has elapsed; then the animation runs
    for 700ms, along the ease-out curve from the first keyframe to the
    last; after that the card shows its own style, which is that of the
    last keyframe.  Nothing but the start delay differs between items:
    their timelines are the same, each counted from its own delay. *)
Theorem entry_transition_uniform (i N : nat) (u t : Z) (s s' : Q) :
  let from := {| opacity := 0; scale := 3 # 10; hue_rotate := 180 |} in
  let to := {| opacity := 1; scale := 1; hue_rotate := 0 |} in
  let tr := entry_transition stylesheet (card i N) in
  let d := delay i N u in
  tr = {| tr_name := Some "cardEffect"%string;
          tr_duration := 700;
          tr_timing := EaseOut;
          tr_fill := Backwards |} /\
  find_keyframes animations "cardEffect" =
    Some {| kf_name := "cardEffect"; kf_from := from; kf_to := to |} /\
  own_style stylesheet (card i N) = Some to /\
  (t < d ->
   displayed animations tr d t = Held from /\
   (forall m,
      displayed animations
        {| tr_name := tr_name tr; tr_duration := tr_duration tr;
           tr_timing := tr_timing tr; tr_fill := m |} d t = Held from <->
      m = Backwards \/ m = Both)) /\
  (d <= t < d + 700 ->
   displayed animations tr d t = Running from to EaseOut (t - d) 700) /\
  (d + 700 <= t -> displayed animations tr d t = Own) /\
  ((fst (running_point from to EaseOut 0) == 0)%Q /\
   style_eq (snd (running_point from to EaseOut 0)) (of_keyframe from)) /\
  ((fst (running_point from to EaseOut 1) == 1)%Q /\
   style_eq (snd (running_point from to EaseOut 1)) (of_keyframe to)) /\
  ((0 <= s)%Q -> (s <= s')%Q -> (s' <= 1)%Q ->
   (0 <= fst (running_point from to EaseOut s))%Q /\
   (fst (running_point from to EaseOut s) <=
    fst (running_point from to EaseOut s'))%Q /\
   (fst (running_point from to EaseOut s') <= 1)%Q /\
   (st_opacity (snd (running_point from to EaseOut s)) <=
    st_opacity (snd (running_point from to EaseOut s')))%Q /\
   (fst (running_point from to EaseOut s) <=
    st_opacity (snd (running_point from to EaseOut s)))%Q /\
   (st_opacity (snd (running_point from to EaseOut s')) <= 1)%Q) /\
  (forall i' N',
     entry_transition stylesheet (card i' N') = tr) /\
  (forall i' N' dt,
     displayed animations (entry_transition stylesheet (card i' N'))
       (delay i' N' u) (delay i' N' u + dt) =
     displayed animations tr d (d + dt)).
Proof.
  intros from to tr d. subst tr.
  split; [apply card_entry_transition|].
  split; [reflexivity|].
  split.
  { unfold own_style, cascaded.
    rewrite !(declared_relevant stylesheet). reflexivity. }
  split.
  { intros Ht. rewrite card_displayed, card_entry_transition.
    unfold displayed, phase_at. cbn [tr_name tr_duration tr_timing tr_fill].
    apply Z.ltb_lt in Ht. rewrite Ht. split; [reflexivity|].
    intros m. destruct m; cbn; split; intros H;
      try discriminate H; try reflexivity; auto;
      destruct H as [H|H]; discriminate H. }
  split.
  { intros [Hd Ht]. rewrite card_displayed. unfold phase_at.
    apply Z.ltb_ge in Hd. apply Z.ltb_lt in Ht. rewrite Hd, Ht.
    reflexivity. }
  split.
  { intros Ht. rewrite card_displayed. unfold phase_at.
    assert (Hd : (t <? d) = false) by (apply Z.ltb_ge; lia).
    apply Z.ltb_ge in Ht. rewrite Hd, Ht. reflexivity. }
  split; [repeat split; reflexivity|].
  split; [repeat split; reflexivity|].
  split.
  { intros H0 Hs H1.
    destruct (ease_out_curve s s' H0 Hs H1) as [A [B [C [D [E F]]]]].
    unfold running_point, mix, from, to. cbn [fst snd st_opacity opacity].
    repeat split; try assumption; nra. }
  split.
  { intros i' N'. rewrite !card_entry_transition. reflexivity. }
  intros i' N' dt. rewrite !card_displayed. unfold phase_at.
  replace (delay i' N' u + dt <? delay i' N' u) with (d + dt <? d)
    by (destruct (Z.ltb_spec (d + dt) d);
        destruct (Z.ltb_spec (delay i' N' u + dt) (delay i' N' u));
        reflexivity || lia).
  replace (delay i' N' u + dt <? delay i' N' u + 700)
    with (d + dt <? d + 700)
    by (destruct (Z.ltb_spec (d + dt) (d + 700));
        destruct (Z.ltb_spec (delay i' N' u + dt) (delay i' N' u + 700));
        reflexivity || lia).
  replace (delay i' N' u + dt - delay i' N' u) with (d + dt - d) by lia.
  reflexivity.
Qed.

Lemma entry_transition_uniform_witness :
  let from := {| opacity := 0; scale := 3 # 10; hue_rotate := 180 |} in
  let to := {| opacity := 1; scale := 1; hue_rotate := 0 |} in
  let tr := entry_transition stylesheet (card 3 13) in
  (250 < delay 3 13 100 /\
   displayed animations tr (delay 3 13 100) 250 = Held from) /\
  (delay 3 13 100 <= 650 < delay 3 13 100 + 700 /\
   displayed animations tr (delay 3 13 100) 650 =
   Running from to EaseOut (650 - delay 3 13 100) 700) /\
  (delay 3 13 100 + 700 <= 1000 /\
   displayed animations tr (delay 3 13 100) 1000 = Own) /\
  ((0 <= 1 # 4)%Q /\ (1 # 4 <= 1 # 2)%Q /\ (1 # 2 <= 1)%Q /\
   (fst (running_point from to EaseOut (1 # 4)) <=
    fst (running_point from to EaseOut (1 # 2)))%Q /\
   (fst (running_point from to EaseOut (1 # 4)) <=
    st_opacity (snd (running_point from to EaseOut (1 # 4))))%Q).
Proof.
  intros from to tr.
  assert (Ha : 250 < delay 3 13 100) by reflexivity.
  assert (Hb : delay 3 13 100 <= 650 < delay 3 13 100 + 700)
    by (split; [discriminate | reflexivity]).
  assert (Hc : delay 3 13 100 + 700 <= 1000) by discriminate.
  assert (H0 : (0 <= 1 # 4)%Q) by discriminate.
  assert (Hs : (1 # 4 <= 1 # 2)%Q) by discriminate.
  assert (H1 : (1 # 2 <= 1)%Q) by discriminate.
  split; [split; [exact Ha|]|].
  { exact (proj1 (proj1 (proj2 (proj2 (proj2
             (entry_transition_uniform 3 13 100 250 0 0)))) Ha)). }
  split; [split; [exact Hb|]|].
  { exact (proj1 (proj2 (proj2 (proj2 (proj2
             (entry_transition_uniform 3 13 100 650 0 0))))) Hb). }
  split; [split; [exact Hc|]|].
  { exact (proj1 (proj2 (proj2 (proj2 (proj2 (proj2
             (entry_transition_uniform 3 13 100 1000 0 0)))))) Hc). }
  split; [exact H0|]. split; [exact Hs|]. split; [exact H1|].
  pose proof (proj1 (proj2 (proj2 (proj2 (proj2 (proj2 (proj2 (proj2 (proj2
                (entry_transition_uniform 3 13 100 0 (1 # 4) (1 # 2))))))))))
                H0 Hs H1) as [_ [Hx [_ [_ [Hy _]]]]].
  split; [exact Hx | exact Hy].
Defined.

(** ** Unit delay *)

(** The start delay of an item reads one custom property only. *)
Lemma delay_reads_stagger (env : environment) (i N : nat) :
  animation_delay stylesheet env (card i N) =
  match env "--stagger-delay"%string with
  | Some u => delay i N u
  | None => 0
  end.
Proof.
  destruct (env "--stagger-delay"%string) as [u|] eqn:Henv;
    unfold delay, animation_delay; rewrite delay_declaration;
    (destruct (Nat.eqb i N); [|destruct (Nat.leb 1 i && Nat.leb i 12)]);
    unfold resolve; rewrite ?card_custom_properties, ?Henv; reflexivity.
Qed.

(** C8 (as amended): an unspecified unit delay is the 100ms that the style
    sheet declares on the grid container; a non-positive unit delay is not
    replaced by that default but used as it is, so that the start delay of
    an item is its multiple of it; where no unit delay is defined at all the
    start delay is 0ms. *)
Theorem unit_delay_default (i N : nat) (u : Z) :
  u <= 0 -> positional i N ->
  custom_properties stylesheet no_custom_properties animated_grid
    "--stagger-delay" = Some 100 /\
  animation_delay stylesheet
    (custom_properties stylesheet no_custom_properties animated_grid) (card i N)
  = Z.of_nat i * 100 /\
  delay i N u = Z.of_nat i * u /\
  delay N N u = 13 * u /\
  animation_delay stylesheet no_custom_properties (card i N) = 0.
Proof.
  intros _ Hi.
  assert (Hpos : forall v, delay i N v = Z.of_nat i * v).
  { intros v. unfold positional in Hi. rewrite delay_cases.
    split_positions; lia. }
  split; [reflexivity|]. split.
  - rewrite delay_reads_stagger.
    change (custom_properties stylesheet no_custom_properties animated_grid
              "--stagger-delay") with (Some 100).
    apply Hpos.
  - split; [apply Hpos|]. split; [apply last_child_delay|].
    rewrite delay_reads_stagger. reflexivity.
Qed.

Lemma unit_delay_default_witness :
  -50 <= 0 /\ positional 1 13 /\
  delay 1 13 (-50) = Z.of_nat 1 * (-50) /\
  delay 13 13 (-50) = 13 * (-50).
Proof.
  assert (Hu : -50 <= 0) by lia.
  assert (Hp : positional 1 13) by (left; lia).
  split; [exact Hu|]. split; [exact Hp|].
  pose proof (unit_delay_default 1 13 (-50) Hu Hp) as [_ [_ [H1 [H2 _]]]].
  split; [exact H1 | exact H2].
Defined.

(** C8 fails as stated: a negative unit delay is not replaced by 100ms, and
    neither is a unit delay of zero. *)
Lemma negative_unit_not_defaulted :
  -50 <= 0 /\ delay 1 13 (-50) = -50 /\ delay 1 13 (-50) <> delay 1 13 100 /\
  0 <= 0 /\ delay 1 13 0 = 0 /\ delay 1 13 0 <> delay 1 13 100.
Proof.
  repeat split; try lia; try reflexivity;
    intros H; vm_compute in H; discriminate H.
Qed.

(** ** Determinism *)

(** Only what the selectors match of an element reaches the cascade. *)
Lemma declared_ext (sheet : list rule) (p : property) (e e' : element) :
  (forall r, In r sheet -> matches (fst r) e = matches (fst r) e') ->
  declared sheet p e = declared sheet p e'.
Proof.
  induction sheet as [|r sheet IH]; intros Hm; [reflexivity|].
  change (r :: sheet) with ([r] ++ sheet). rewrite !declared_app.
  rewrite IH by (intros r' Hr'; apply Hm; right; exact Hr').
  unfold declared at 1 3. simpl.
  rewrite (Hm r) by (left; reflexivity). reflexivity.
Qed.

Lemma resolve_ext (env env' : environment) (t : time_expr) :
  (forall name, env name = env' name) -> resolve env t = resolve env' t.
Proof. intros H. destruct t; simpl; [reflexivity | rewrite H; reflexivity]. Qed.

(** The rules see of an item its position and the number of its siblings,
    and nothing else. *)
Lemma item_matches (e : element) :
  is_item e ->
  forall r, In r stylesheet ->
    matches (fst r) e = matches (fst r) (card (index e) (siblings e)).
Proof.
  intros [Hcard Hgrid] r Hr. unfold stylesheet in Hr. simpl in Hr.
  repeat (destruct Hr as [<-|Hr]; [unfold matches; cbn [fst sel_class];
    rewrite ?Hcard, ?Hgrid; reflexivity|]).
  contradiction.
Qed.

Lemma item_cascaded (e : element) (p : property) :
  is_item e ->
  cascaded stylesheet p e =
  cascaded stylesheet p (card (index e) (siblings e)).
Proof.
  intros He. unfold cascaded.
  rewrite (declared_ext stylesheet p e (card (index e) (siblings e)));
    [reflexivity | apply item_matches; exact He].
Qed.

Lemma item_region (e : element) :
  is_item e -> grid_area stylesheet e = region (index e) (siblings e).
Proof.
  intros He. unfold region, grid_area. rewrite item_cascaded by exact He.
  reflexivity.
Qed.

Lemma item_delay (e : element) (env : environment) :
  is_item e ->
  animation_delay stylesheet env e =
  animation_delay stylesheet env (card (index e) (siblings e)).
Proof.
  intros He. unfold animation_delay. rewrite item_cascaded by exact He.
  destruct (cascaded stylesheet PAnimationDelay _) as [[| t | | | |]|];
    try reflexivity.
  rewrite (resolve_ext (custom_properties stylesheet env e)
             (custom_properties stylesheet env
                (card (index e) (siblings e)))); [reflexivity|].
  intros name. unfold custom_properties.
  rewrite item_cascaded by exact He. reflexivity.
Qed.

(** C9: region and start delay are functions of the ordinal position, the
    total count and the unit delay: two items that agree on these three get
    the same region and the same delay, whatever else differs between them
    (other classes they carry, other custom properties in scope). *)
Theorem region_delay_deterministic
  (e e' : element) (env env' : environment) :
  is_item e -> is_item e' ->
  index e = index e' -> siblings e = siblings e' ->
  env "--stagger-delay"%string = env' "--stagger-delay"%string ->
  grid_area stylesheet e = grid_area stylesheet e' /\
  animation_delay stylesheet env e = animation_delay stylesheet env' e'.
Proof.
  intros He He' Hi HN Hu. split.
  - rewrite (item_region e He), (item_region e' He'), Hi, HN. reflexivity.
  - rewrite (item_delay e env He), (item_delay e' env' He').
    rewrite !delay_reads_stagger, Hi, HN, Hu. reflexivity.
Qed.

Lemma region_delay_deterministic_witness :
  let e := {| classes := ["wide"; "card"]%string; index := 5; siblings := 13 |} in
  let env' : environment :=
    fun name => if String.eqb name "--stagger-delay" then Some 100 else Some 7 in
  is_item e /\ is_item (card 5 13) /\
  grid_area stylesheet e = grid_area stylesheet (card 5 13) /\
  animation_delay stylesheet (stagger 100) e =
  animation_delay stylesheet env' (card 5 13).
Proof.
  intros e env'.
  assert (He : is_item e) by (split; reflexivity).
  assert (Hc : is_item (card 5 13)) by (split; reflexivity).
  split; [exact He|]. split; [exact Hc|].
  exact (region_delay_deterministic e (card 5 13) (stagger 100) env'
           He Hc eq_refl eq_refl eq_refl).
Defined.

(** * Further properties of the style sheet *)

Lemma labels_nodup : NoDup labels.
Proof.
  unfold labels.
  repeat (constructor; [simpl; intuition discriminate|]). constructor.
Qed.

Lemma star_not_label : ~ In star labels.
Proof. unfold labels, star. simpl. intuition discriminate. Qed.

(** X1. Beyond the template: an item from position 13 on that is not the last
    one matches no positional rule; it has no region (automatic placement)
    and, whatever the unit delay, the start delay 0 of the shorthand. *)
Theorem beyond_template_unplaced (i N : nat) (u : Z) :
  (13 <= i)%nat -> (i < N)%nat ->
  region i N = None /\ delay i N u = 0.
Proof.
  intros Hi HN. rewrite region_cases, delay_cases.
  split; split_positions; try lia; reflexivity.
Qed.

Lemma beyond_template_unplaced_witness :
  (13 <= 14)%nat /\ (14 < 16)%nat /\
  region 14 16 = None /\ delay 14 16 100 = 0.
Proof.
  assert (H1 : (13 <= 14)%nat) by lia.
  assert (H2 : (14 < 16)%nat) by lia.
  split; [exact H1|]. split; [exact H2|].
  exact (beyond_template_unplaced 14 16 100 H1 H2).
Defined.

(** X2. No two items are given the same region, whatever the number of items. *)
Theorem regions_disjoint (i j N : nat) (a : string) :
  i <> j -> region i N = Some a -> region j N <> Some a.
Proof.
  intros Hij. rewrite !region_cases.
  destruct (Nat.eqb_spec i N) as [Hi|Hi];
    destruct (Nat.eqb_spec j N) as [Hj|Hj]; [lia| | |].
  - intros Ha. inversion Ha; subst a.
    destruct (Nat.leb 1 j && Nat.leb j 12); [|discriminate].
    intros Hj'. apply star_not_label. apply (nth_error_In _ _ Hj').
  - destruct (Nat.leb 1 i && Nat.leb i 12); [|discriminate].
    intros Hi' Ha. inversion Ha; subst a.
    apply star_not_label. apply (nth_error_In _ _ Hi').
  - destruct (Nat.leb_spec 1 i); [|discriminate].
    destruct (Nat.leb_spec i 12); [|discriminate].
    destruct (Nat.leb_spec 1 j); [|discriminate].
    destruct (Nat.leb_spec j 12); [|discriminate].
    cbn [andb]. intros Hi' Hj'. rewrite <- Hi' in Hj'.
    apply (proj1 (NoDup_nth_error labels) labels_nodup) in Hj'.
    + lia.
    + simpl. lia.
Qed.

Lemma regions_disjoint_witness :
(5 <> 13)%nat /\ region 5 13 = Some "e"%string /\ region 13 13 <> Some "e"%string.
Proof.
  assert (H1 : (5 <> 13)%nat) by lia.
  assert (H2 : region 5 13 = Some "e"%string) by reflexivity.
  split; [exact H1|]. split; [exact H2|].
  exact (regions_disjoint 5 13 13 "e" H1 H2).
Defined.

(** X3. Every region that a rule gives to an item is one that the template of
    the container defines. *)
Theorem region_in_template (i N : nat) (a : string) :
  region i N = Some a ->
  In a (Template.area_names
          (Template.grid (grid_template_areas stylesheet animated_grid))).
Proof.
  rewrite region_cases.
  change (Template.area_names
            (Template.grid (grid_template_areas stylesheet animated_grid)))
    with ["a"; "b"; "c"; "d"; "l"; star; "e"; "k"; "f"; "j"; "i"; "h"; "g"]%string.
  destruct (Nat.eqb i N).
  - intros Ha. inversion Ha. simpl. tauto.
  - destruct (Nat.leb 1 i && Nat.leb i 12); [|discriminate].
    intros Ha. apply nth_error_In in Ha. unfold labels in Ha.
    simpl in *. tauto.
Qed.

Lemma region_in_template_witness :
  region 7 7 = Some star /\
  In star (Template.area_names
             (Template.grid (grid_template_areas stylesheet animated_grid))).
Proof.
  assert (H : region 7 7 = Some star) by reflexivity.
  split; [exact H|]. exact (region_in_template 7 7 star H).
Defined.

(** X4. With thirteen items or more every region of the template holds an
    item. *)
Theorem template_filled (N : nat) (a : string) :
  (13 <= N)%nat ->
  In a (Template.area_names
          (Template.grid (grid_template_areas stylesheet animated_grid))) ->
  exists i, (1 <= i <= N)%nat /\ region i N = Some a.
Proof.
  intros HN Ha.
  assert (Hcases : a = star \/ In a labels).
  { revert Ha.
    change (Template.area_names
              (Template.grid (grid_template_areas stylesheet animated_grid)))
      with ["a"; "b"; "c"; "d"; "l"; star; "e"; "k"; "f"; "j"; "i"; "h"; "g"]%string.
    unfold labels. simpl. intuition (subst; auto). }
  destruct Hcases as [->|Hl].
  - exists N. split; [lia | apply last_child_region].
  - apply In_nth_error in Hl. destruct Hl as [n Hn].
    assert (Hlt : (n < List.length labels)%nat).
    { apply nth_error_Some. rewrite Hn. discriminate. }
    simpl in Hlt. exists (S n). split; [lia|].
    rewrite region_cases. split_positions; try lia.
    replace (S n - 1)%nat with n by lia. exact Hn.
Qed.

Lemma template_filled_witness :
  (13 <= 13)%nat /\
  exists i, (1 <= i <= 13)%nat /\ region i 13 = Some "k"%string.
Proof.
  assert (HN : (13 <= 13)%nat) by lia.
  split; [exact HN|].
  apply (template_filled 13 "k" HN). vm_compute. tauto.
Defined.

(** X5. With twelve items or fewer the cell of the label of the last position
    stays empty: the last item goes to the star, and no other item is given
    that label. *)
Theorem last_label_unused (i N : nat) :
  (1 <= N <= 12)%nat -> region i N <> nth_error labels (N - 1).
Proof.
  intros HN. rewrite region_cases.
  destruct (Nat.eqb_spec i N) as [Hi|Hi].
  - intros Heq. apply star_not_label. symmetry in Heq.
    apply (nth_error_In _ _ Heq).
  - destruct (Nat.leb_spec 1 i) as [H1|H1];
      destruct (Nat.leb_spec i 12) as [H12|H12]; cbn [andb]; intros Heq.
    + apply (proj1 (NoDup_nth_error labels) labels_nodup) in Heq;
        [lia | simpl; lia].
    + symmetry in Heq. apply nth_error_None in Heq. simpl in Heq. lia.
    + symmetry in Heq. apply nth_error_None in Heq. simpl in Heq. lia.
    + symmetry in Heq. apply nth_error_None in Heq. simpl in Heq. lia.
Qed.

Lemma last_label_unused_witness :
  (1 <= 5 <= 12)%nat /\ region 5 5 <> nth_error labels (5 - 1) /\
  region 3 5 <> nth_error labels (5 - 1).
Proof.
  assert (HN : (1 <= 5 <= 12)%nat) by lia.
  split; [exact HN|].
  split; [exact (last_label_unused 5 5 HN) | exact (last_label_unused 3 5 HN)].
Defined.

Lemma declared_no_match (sheet : list rule) (p : property) (e : element) :
  (forall r, In r sheet -> matches (fst r) e = false) ->
  declared sheet p e = [].
Proof.
  induction sheet as [|r sheet IH]; intros Hm; [reflexivity|].
  change (r :: sheet) with ([r] ++ sheet). rewrite declared_app.
  rewrite IH by (intros r' Hr'; apply Hm; right; exact Hr').
  unfold declared. simpl. rewrite (Hm r) by (left; reflexivity).
  reflexivity.
Qed.

(** The cascade of a property that only rules for cards declare finds
    nothing on an element that is not a card. *)
Ltac only_card_rules Hcard :=
  unfold cascaded; rewrite declared_relevant;
  rewrite declared_no_match; [reflexivity|];
  let r := fresh "r" in
  let Hr := fresh "Hr" in
  intros r Hr; cbn in Hr;
  repeat (destruct Hr as [<-|Hr];
          [unfold matches; cbn [fst sel_class]; rewrite Hcard; reflexivity|]);
  contradiction.

(** X6. The rules leave every element that is not a card alone: no region, no
    animation, no delay, whatever its other classes and its position. *)
Theorem other_elements_untouched (e : element) (env : environment) :
  has_class "card" e = false ->
  grid_area stylesheet e = None /\
  animation_name stylesheet e = None /\
  animation_delay stylesheet env e = 0.
Proof.
  intros Hcard.
  assert (Harea : cascaded stylesheet PGridArea e = None)
    by only_card_rules Hcard.
  assert (Hname : cascaded stylesheet PAnimationName e = None)
    by only_card_rules Hcard.
  assert (Hdelay : cascaded stylesheet PAnimationDelay e = None)
    by only_card_rules Hcard.
  unfold grid_area, animation_name, animation_delay.
  rewrite Harea, Hname, Hdelay. auto.
Qed.

Lemma other_elements_untouched_witness :
  has_class "card" animated_grid = false /\
  grid_area stylesheet animated_grid = None /\
  animation_name stylesheet animated_grid = None /\
  animation_delay stylesheet (stagger 100) animated_grid = 0.
Proof.
  assert (H : has_class "card" animated_grid = false) by reflexivity.
  split; [exact H|].
  exact (other_elements_untouched animated_grid (stagger 100) H).
Defined.

(** X7. Whatever the number of items, the last one starts after every other,
    for a positive unit delay. *)
Theorem last_item_starts_last (i N : nat) (u : Z) :
  0 < u -> (i < N)%nat -> delay i N u < delay N N u.
Proof.
  intros Hu Hi. rewrite !delay_cases, Nat.eqb_refl.
  split_positions; nia.
Qed.

Lemma last_item_starts_last_witness :
  0 < 100 /\ (15 < 20)%nat /\ delay 15 20 100 < delay 20 20 100.
Proof.
  assert (Hu : 0 < 100) by lia.
  assert (Hi : (15 < 20)%nat) by lia.
  split; [exact Hu|]. split; [exact Hi|].
  exact (last_item_starts_last 15 20 100 Hu Hi).
Defined.

(** X8. However many items there are, no start delay is negative or exceeds
    thirteen units, for a unit delay that is not negative: the delays do not
    grow with the number of items. *)
Theorem delay_bounded (i N : nat) (u : Z) :
  0 <= u -> 0 <= delay i N u <= 13 * u.
Proof.
  intros Hu. rewrite delay_cases. split_positions; nia.
Qed.

Lemma delay_bounded_witness :
  0 <= 100 /\ 0 <= delay 40 50 100 <= 13 * 100.
Proof.
  assert (Hu : 0 <= 100) by lia.
  split; [exact Hu|]. exact (delay_bounded 40 50 100 Hu).
Defined.

(** X9. The stagger runs around the border of the grid: two items that follow
    each other among the first twelve, neither of them the last, are placed
    in single cells that share an edge. *)
Theorem successive_items_adjacent (i N : nat) :
  (1 <= i <= 11)%nat -> (i + 1 < N)%nat ->
  let g := Template.grid (grid_template_areas stylesheet animated_grid) in
  exists a b p q,
    region i N = Some a /\ region (i + 1) N = Some b /\
    Template.cells g a = [p] /\ Template.cells g b = [q] /\
    Template.adjacent p q = true.
Proof.
  intros Hi HN g.
  assert (Ha : region i N = nth_error labels (i - 1)).
  { rewrite region_cases. split_positions; try lia. reflexivity. }
  assert (Hb : region (i + 1) N = nth_error labels i).
  { rewrite region_cases. split_positions; try lia.
    replace (i + 1 - 1)%nat with i by lia. reflexivity. }
  rewrite Ha, Hb. clear Ha Hb HN.
  destruct i as [|i]; [lia|].
  do 11 (destruct i as [|i];
         [do 4 eexists; repeat split; reflexivity|]).
  lia.
Qed.

Lemma successive_items_adjacent_witness :
  (1 <= 4 <= 11)%nat /\ (4 + 1 < 13)%nat /\
  exists a b p q,
    region 4 13 = Some a /\ region (4 + 1) 13 = Some b /\
    Template.cells
      (Template.grid (grid_template_areas stylesheet animated_grid)) a = [p] /\
    Template.cells
      (Template.grid (grid_template_areas stylesheet animated_grid)) b = [q] /\
    Template.adjacent p q = true.
Proof.
  assert (H1 : (1 <= 4 <= 11)%nat) by lia.
  assert (H2 : (4 + 1 < 13)%nat) by lia.
  split; [exact H1|]. split; [exact H2|].
  exact (successive_items_adjacent 4 13 H1 H2).
Defined.

(** * The counter reducer *)

Section Reducer.
Import Hooks.

Lemma dispatch_all_app (s : state) (l1 l2 : list action) :
  dispatch_all s (l1 ++ l2) =
  match dispatch_all s l1 with
  | Returns s' => dispatch_all s' l2
  | Throws => Throws
  end.
Proof.
  revert s. induction l1 as [|a l1 IH]; intros s; simpl; [reflexivity|].
  destruct (reducer s a); [apply IH | reflexivity].
Qed.

(** On numbers the reducer counts as doubles do: exactly up to 2^53, and
    not beyond. *)
Example reducer_counts :
  reducer (SNumber 41) (Action "increment") = Returns (SObject (CNumber 42)) /\
  reducer (SNumber 0) (Action "decrement") = Returns (SObject (CNumber (-1))) /\
  reducer (SNumber (2 ^ 53)) (Action "increment") =
    Returns (SObject (CNumber (2 ^ 53))) /\
  reducer (SNumber (- 2 ^ 53)) (Action "decrement") =
    Returns (SObject (CNumber (- 2 ^ 53))) /\
  reducer (SNumber (2 ^ 53 + 2)) (Action "increment") =
    Returns (SObject (CNumber (2 ^ 53 + 4))) /\
  reducer (SNumber 0) (Action "reset") = Throws.
Proof. repeat split; vm_compute; reflexivity. Qed.

(** On an object the count that was there is lost: what comes back depends
    on the action only. *)
Lemma reducer_object (c : count_value) (a : action) :
  known a ->
  reducer (SObject c) a =
  Returns (SObject (if String.eqb (type a) "increment"
                    then CString "[object Object]1" else CNaN)).
Proof.
  intros [Ha|Ha]; unfold reducer; rewrite Ha; reflexivity.
Qed.

Lemma reducer_known (s : state) (a : action) :
  known a -> exists c, reducer s a = Returns (SObject c).
Proof.
  intros [Ha|Ha]; unfold reducer; rewrite Ha; eexists; reflexivity.
Qed.

(** X11. From the initial state 0, once two or more actions of the two types have
    been dispatched, the count is no longer a number: it is the string
    "[object Object]1" when the last action was an increment and NaN when it
    was a decrement, whatever came before. *)
Theorem count_lost_after_two (acts : list action) (a b : action) :
  Forall known acts -> known a -> known b ->
  dispatch_all initial_state (acts ++ [a; b]) =
  Returns (SObject (if String.eqb (type b) "increment"
                    then CString "[object Object]1" else CNaN)).
Proof.
  intros Hacts Ha Hb.
  change (acts ++ [a; b]) with (acts ++ [a] ++ [b]).
  rewrite app_assoc, dispatch_all_app.
  assert (Hobj : forall s l, Forall known l ->
                   exists s', dispatch_all s l = Returns s').
  { intros s l Hl. revert s.
    induction Hl as [|x l Hx _ IH]; intros s; simpl.
    - exists s. reflexivity.
    - destruct (reducer_known s x Hx) as [c ->]. apply IH. }
  rewrite dispatch_all_app.
  destruct (Hobj initial_state acts Hacts) as [s' ->]. simpl.
  destruct (reducer_known s' a Ha) as [c ->].
  rewrite (reducer_object c b Hb). reflexivity.
Qed.

End Reducer.

Lemma count_lost_after_two_witness :
  Hooks.dispatch_all Hooks.initial_state
    ([Hooks.Action "decrement"] ++
     [Hooks.Action "increment"; Hooks.Action "increment"])
  = Hooks.Returns (Hooks.SObject (Hooks.CString "[object Object]1")).
Proof.
  apply (count_lost_after_two [Hooks.Action "decrement"]
           (Hooks.Action "increment") (Hooks.Action "increment")).
  - constructor; [right; reflexivity | constructor].
  - left. reflexivity.
  - left. reflexivity.
Defined.
